(** * Terraform provider for Zabbix: users, user groups and proxies

    A shallow embedding of the provider's handlers
    ([provider/resource_user.go], the user-group handlers and the proxy
    handlers) and the properties of their create / read / update / delete
    and data-source read operations.

    The handlers talk to two collaborators that live outside the
    repository: the plugin SDK's [schema.ResourceData] (the local state)
    and the Zabbix client ([zabbix.API], the remote system).  The local
    state is modelled as a schema-typed key/value store; a handler is a
    program whose remote calls are nodes of a tree, so that every theorem
    quantifies over every possible behaviour of the remote system. *)

From stdpp Require Import gmap strings list fin_maps.
From Stdlib Require Import ZArith.

Local Set Warnings "-register-all".
Local Open Scope string_scope.
Local Open Scope list_scope.
Local Open Scope Z_scope.

(** ** Go values *)

(** What an [interface{}] handed to or obtained from the local state can
    hold: [nil], a [string], an [int], a [[]interface{}], a
    [map[string]interface{}], or a [*schema.Set] of strings (given by the
    list its [List()] method returns). *)
Inductive Value : Type :=
| VNil
| VString (s : string)
| VInt (z : Z)
| VList (l : list Value)
| VMap (m : gmap string Value)
| VSet (l : list string).

(** The [Type] attribute of a schema field. *)
Inductive ValueType : Type := TypeString | TypeInt | TypeList | TypeSet.

Global Instance ValueType_eq_dec : EqDecision ValueType.
Proof. solve_decision. Defined.

Definition type_of (v : Value) : option ValueType :=
  match v with
  | VString _ => Some TypeString
  | VInt _ => Some TypeInt
  | VList _ => Some TypeList
  | VSet _ => Some TypeSet
  | VNil | VMap _ => None
  end.

(** Go's zero value of a field of the given type. *)
Definition zero (t : ValueType) : Value :=
  match t with
  | TypeString => VString ""
  | TypeInt => VInt 0
  | TypeList => VList []
  | TypeSet => VSet []
  end.

Definition is_zero (v : Value) : bool :=
  match v with
  | VNil => true
  | VString s => bool_decide (s = "")
  | VInt z => bool_decide (z = 0)
  | VList l => match l with [] => true | _ => false end
  | VMap m => bool_decide (size m = 0%nat)
  | VSet l => match l with [] => true | _ => false end
  end.

(** A non-nil Go [error]: one made by [errors.New], or one made by the
    client library. *)
Inductive Err : Type :=
| errors_New (text : string)
| client_error (code : Z) (text : string).

(** Go's [error]: [None] is [nil]. *)
Abbreviation error := (option Err).

(** ** The client library's records ([zabbix.User], ...)

    Only the fields the handlers read or write are kept. *)

Module UserGroupID.
Record t : Type := Build { UserGroupID : string }.
End UserGroupID.

Module User.
Record t : Type := Build {
  UserID : string;
  Username : string;
  Password : string;
  RoleID : string;
  Name : string;
  Surname : string;
  Groups : list UserGroupID.t
}.
End User.

Module UserGroupPermission.
Record t : Type := Build { ID : string; Permission : Z }.
End UserGroupPermission.

Module UserGroup.
Record t : Type := Build {
  UserGroupID : string;
  Name : string;
  DebugMode : Z;
  GUIAccess : Z;
  Status : Z;
  Permissions : list UserGroupPermission.t
}.
End UserGroup.

Module Proxy.
Record t : Type := Build {
  ProxyID : string;
  Name : string;
  OperatingMode : Z;
  Description : string;
  TLSConnect : Z;
  TLSAccept : Z;
  TLSIssuer : string;
  TLSSubject : string;
  TLSPSKIdentity : string;
  TLSPSK : string;
  ProxyAddress : string
}.
End Proxy.

(** [zabbix.Params] *)
Abbreviation Params := (gmap string Value).

(** ** Remote calls

    The methods of [zabbix.API] the handlers use, and what the handler
    sees when the call returns.  A [...Create] call is given a slice and
    fills in the identities in place: its reply is the content of the
    slice after the call, and the error. *)
Inductive ApiCall : Type :=
| UsersCreate (items : list User.t)
| UsersGet (params : Params)
| UsersUpdate (items : list User.t)
| UsersDeleteByIds (ids : list string)
| UserGroupsCreate (items : list UserGroup.t)
| UserGroupsGet (params : Params)
| UserGroupsUpdate (items : list UserGroup.t)
| UserGroupsDeleteByIds (ids : list string)
| ProxiesCreate (items : list Proxy.t)
| ProxiesGet (params : Params)
| ProxiesUpdate (items : list Proxy.t)
| ProxiesDeleteByIds (ids : list string).

Definition Reply (c : ApiCall) : Type :=
  match c with
  | UsersCreate _ | UsersGet _ => (list User.t * error)%type
  | UserGroupsCreate _ | UserGroupsGet _ => (list UserGroup.t * error)%type
  | ProxiesCreate _ | ProxiesGet _ => (list Proxy.t * error)%type
  | UsersUpdate _ | UsersDeleteByIds _
  | UserGroupsUpdate _ | UserGroupsDeleteByIds _
  | ProxiesUpdate _ | ProxiesDeleteByIds _ => error
  end.

(** The error component of a reply. *)
Definition reply_error (c : ApiCall) : Reply c -> error :=
  match c with
  | UsersCreate _ | UsersGet _ => snd
  | UserGroupsCreate _ | UserGroupsGet _ => snd
  | ProxiesCreate _ | ProxiesGet _ => snd
  | UsersUpdate _ | UsersDeleteByIds _
  | UserGroupsUpdate _ | UserGroupsDeleteByIds _
  | ProxiesUpdate _ | ProxiesDeleteByIds _ => fun e => e
  end.

Definition is_create (c : ApiCall) : bool :=
  match c with
  | UsersCreate _ | UserGroupsCreate _ | ProxiesCreate _ => true
  | _ => false
  end.

(** ** Programs

    A handler either returns, or panics (a failed type assertion, an index
    out of range), or calls the remote system and goes on with the reply. *)
Inductive Prog (A : Type) : Type :=
| Ret (a : A)
| Panic (why : string)
| Call (c : ApiCall) (k : Reply c -> Prog A).

Arguments Ret {A} a.
Arguments Panic {A} why.
Arguments Call {A} c k.

Fixpoint pbind {A B : Type} (p : Prog A) (f : A -> Prog B) : Prog B :=
  match p with
  | Ret a => f a
  | Panic why => Panic why
  | Call c k => Call c (fun r => pbind (k r) f)
  end.

(** ** The local state

    Modelled from the spec: [schema.ResourceData] of the plugin SDK, "a
    flat key/value record store supplied by the hosting framework", typed
    by the field schema the resource declares.  It holds the resource id
    and the fields that are set. *)
Record ResourceData : Type := mkResourceData {
  rd_schema : gmap string ValueType;
  rd_id : string;
  rd_attrs : gmap string Value
}.

(** Handlers get [d *schema.ResourceData] and change it in place: they are
    state transformers over [Prog]. *)
Definition M (A : Type) : Type := ResourceData -> Prog (A * ResourceData).

Global Instance M_ret : MRet M := fun A a d => Ret (a, d).
Global Instance M_bind : MBind M := fun A B f m d =>
  pbind (m d) (fun '(a, d') => f a d').

Definition panic {A : Type} (why : string) : M A := fun _ => Panic why.

(** [api.Method(args)] *)
Definition call (c : ApiCall) : M (Reply c) :=
  fun d => Call c (fun r => Ret (r, d)).

(** [d.Id()] *)
Definition Id : M string := fun d => Ret (rd_id d, d).

(** [d.SetId(v)] *)
Definition set_id (v : string) (d : ResourceData) : ResourceData :=
  mkResourceData (rd_schema d) v (rd_attrs d).
Definition SetId (v : string) : M unit := fun d => Ret (tt, set_id v d).

(** The value [d.Get(key)] yields: the value held, the zero value of the
    field's type when the field is not set, [nil] when the schema has no
    such field. *)
Definition get (key : string) (d : ResourceData) : Value :=
  match rd_attrs d !! key with
  | Some v => v
  | None => match rd_schema d !! key with
            | Some t => zero t
            | None => VNil
            end
  end.
Definition Get (key : string) : M Value := fun d => Ret (get key d, d).

(** [d.GetOk(key)]: the value, and whether it is set to a non-zero value. *)
Definition GetOk (key : string) : M (Value * bool) :=
  fun d => Ret ((get key d, negb (is_zero (get key d))), d).

(** [d.Set(key, value)].  The call fails, writing nothing, when the schema
    has no field [key] of the value's type; the handlers drop the error it
    returns. *)
Definition set_field (key : string) (v : Value) (d : ResourceData) : ResourceData :=
  match rd_schema d !! key with
  | Some t =>
      if decide (type_of v = Some t)
      then mkResourceData (rd_schema d) (rd_id d) (<[key := v]> (rd_attrs d))
      else d
  | None => d
  end.
Definition SetField (key : string) (v : Value) : M unit :=
  fun d => Ret (tt, set_field key v d).

(** Type assertions [v.(string)], [v.(int)], [v.([]interface{})],
    [v.(map[string]interface{})], [v.( *schema.Set)]. *)
Definition assert_string (v : Value) : M string :=
  match v with VString s => mret s | _ => panic "interface conversion: not a string" end.
Definition assert_int (v : Value) : M Z :=
  match v with VInt z => mret z | _ => panic "interface conversion: not an int" end.
Definition assert_list (v : Value) : M (list Value) :=
  match v with VList l => mret l | _ => panic "interface conversion: not a []interface{}" end.
Definition assert_map (v : Value) : M (gmap string Value) :=
  match v with VMap m => mret m | _ => panic "interface conversion: not a map[string]interface{}" end.
Definition assert_set (v : Value) : M (list string) :=
  match v with VSet l => mret l | _ => panic "interface conversion: not a *schema.Set" end.

(** [m[key]] on a Go map: [nil] when the key is absent. *)
Definition index_map (m : gmap string Value) (key : string) : Value :=
  match m !! key with
  | Some v => v
  | None => VNil
  end.

(** [xs[0]] on a slice. *)
Definition index0 {A : Type} (xs : list A) : M A :=
  match xs with
  | x :: _ => mret x
  | [] => panic "index out of range [0] with length 0"
  end.

(** [for i, x := range xs { ... }]: the body runs on every index and
    element in order and updates the variables [s] of the enclosing
    function. *)
Fixpoint for_range {A St : Type} (body : nat -> A -> St -> M St)
    (i : nat) (xs : list A) (s : St) : M St :=
  match xs with
  | [] => mret s
  | x :: rest => s' ← body i x s; for_range body (S i) rest s'
  end.

(** [d.Get(key).(string)] and [d.Get(key).(int)] *)
Definition GetString (key : string) : M string := v ← Get key; assert_string v.
Definition GetInt (key : string) : M Z := v ← Get key; assert_int v.

(** ** Users ([provider/resource_user.go]) *)

Definition resourceUserGroupsV1 : M (list UserGroupID.t) :=
  v ← Get "groups";
  rawGroups ← assert_set v;
  let groups := replicate (length rawGroups) (UserGroupID.Build "") in
  for_range (fun i raw groups => mret (<[i := UserGroupID.Build raw]> groups))
    0%nat rawGroups groups.

Definition userRead (params : Params) : M error :=
  '(Users, err) ← call (UsersGet params);
  match err with
  | Some e => mret (Some e)
  | None =>
      if (length Users <? 1)%nat then
        SetId "";; mret None
      else if (1 <? length Users)%nat then
        mret (Some (errors_New "multiple Users found"))
      else
        t ← index0 Users;
        SetId (User.UserID t);;
        SetField "username" (VString (User.Username t));;
        SetField "roleid" (VString (User.RoleID t));;
        SetField "name" (VString (User.Name t));;
        SetField "surname" (VString (User.Surname t));;
        mret None
  end.

Definition dataUserRead : M error :=
  username ← Get "username";
  userRead {[ "filter" := VMap {[ "username" := username ]} ]}.

Definition resourceUserRead : M error :=
  id ← Id;
  userRead {[ "userids" := VString id ]}.

Definition resourceUserCreate : M error :=
  username ← GetString "username";
  password ← GetString "password";
  roleid ← GetString "roleid";
  name ← GetString "name";
  surname ← GetString "surname";
  groups ← resourceUserGroupsV1;
  let item := User.Build "" username password roleid name surname groups in
  let items := [item] in
  '(items, err) ← call (UsersCreate items);
  match err with
  | Some e => mret (Some e)
  | None =>
      created ← index0 items;
      SetId (User.UserID created);;
      resourceUserRead
  end.

Definition resourceUserUpdate : M error :=
  id ← Id;
  username ← GetString "username";
  password ← GetString "password";
  roleid ← GetString "roleid";
  name ← GetString "name";
  surname ← GetString "surname";
  groups ← resourceUserGroupsV1;
  let item := User.Build id username password roleid name surname groups in
  let items := [item] in
  err ← call (UsersUpdate items);
  match err with
  | Some e => mret (Some e)
  | None => resourceUserRead
  end.

Definition resourceUserDelete : M error :=
  id ← Id;
  call (UsersDeleteByIds [id]).

(** ** User groups *)

Definition resourceHostGroupPermissionsV1 : M (list UserGroupPermission.t) :=
  let permissionsRequests : list UserGroupPermission.t := [] in
  v ← Get "host_permission";
  permissions ← assert_list v;
  for_range (fun i entry (permissionsRequests : list UserGroupPermission.t) =>
      permission ← assert_map entry;
      id ← assert_string (index_map permission "id");
      level ← assert_int (index_map permission "permission");
      let permissionsRequest := UserGroupPermission.Build id level in
      mret (permissionsRequests ++ [permissionsRequest]))
    0%nat permissions permissionsRequests.

Definition userGroupRead (params : Params) : M error :=
  '(UserGroups, err) ← call (UserGroupsGet params);
  match err with
  | Some e => mret (Some e)
  | None =>
      if (length UserGroups <? 1)%nat then
        SetId "";; mret None
      else if (1 <? length UserGroups)%nat then
        mret (Some (errors_New "multiple UserGroups found"))
      else
        t ← index0 UserGroups;
        SetId (UserGroup.UserGroupID t);;
        SetField "name" (VString (UserGroup.Name t));;
        SetField "debug_mode" (VInt (UserGroup.DebugMode t));;
        SetField "gui_access" (VInt (UserGroup.GUIAccess t));;
        SetField "status" (VInt (UserGroup.Status t));;
        mret None
  end.

Definition dataUserGroupRead : M error :=
  name ← Get "name";
  userGroupRead {[ "filter" := VMap {[ "name" := name ]} ]}.

Definition resourceUserGroupRead : M error :=
  id ← Id;
  userGroupRead {[ "usrgrpids" := VString id ]}.

Definition resourceUserGroupCreate : M error :=
  name ← GetString "name";
  debug_mode ← GetInt "debug_mode";
  gui_access ← GetInt "gui_access";
  status ← GetInt "status";
  permissions ← resourceHostGroupPermissionsV1;
  let item := UserGroup.Build "" name debug_mode gui_access status permissions in
  let items := [item] in
  '(items, err) ← call (UserGroupsCreate items);
  match err with
  | Some e => mret (Some e)
  | None =>
      created ← index0 items;
      SetId (UserGroup.UserGroupID created);;
      resourceUserGroupRead
  end.

Definition resourceUserGroupUpdate : M error :=
  id ← Id;
  name ← GetString "name";
  debug_mode ← GetInt "debug_mode";
  gui_access ← GetInt "gui_access";
  status ← GetInt "status";
  permissions ← resourceHostGroupPermissionsV1;
  let item := UserGroup.Build id name debug_mode gui_access status permissions in
  let items := [item] in
  err ← call (UserGroupsUpdate items);
  match err with
  | Some e => mret (Some e)
  | None => resourceUserGroupRead
  end.

Definition resourceUserGroupDelete : M error :=
  id ← Id;
  call (UserGroupsDeleteByIds [id]).

(** ** Proxies *)

Definition proxyRead (params : Params) : M error :=
  '(proxys, err) ← call (ProxiesGet params);
  match err with
  | Some e => mret (Some e)
  | None =>
      if (length proxys <? 1)%nat then
        SetId "";; mret None
      else if (1 <? length proxys)%nat then
        mret (Some (errors_New "multiple proxys found"))
      else
        proxy ← index0 proxys;
        SetId (Proxy.ProxyID proxy);;
        SetField "name" (VString (Proxy.Name proxy));;
        SetField "operating_mode" (VInt (Proxy.OperatingMode proxy));;
        SetField "description" (VString (Proxy.Description proxy));;
        SetField "tls_connect" (VInt (Proxy.TLSConnect proxy));;
        SetField "tls_accept" (VInt (Proxy.TLSAccept proxy));;
        SetField "tls_issuer" (VString (Proxy.TLSIssuer proxy));;
        SetField "tls_subject" (VString (Proxy.TLSSubject proxy));;
        SetField "tls_psk_identity" (VString (Proxy.TLSPSKIdentity proxy));;
        SetField "tls_psk" (VString (Proxy.TLSPSK proxy));;
        SetField "proxy_address" (VString (Proxy.ProxyAddress proxy));;
        mret None
  end.

Definition dataProxyRead : M error :=
  let lookups := ["name"] in
  filter ← for_range (fun _ k (filter : gmap string Value) =>
      '(v, ok) ← GetOk k;
      mret (if ok : bool then <[k := v]> filter else filter))
    0%nat lookups ∅;
  if (size filter <? 1)%nat then
    mret (Some (errors_New "no proxy lookup attribute"))
  else
    proxyRead {[ "filter" := VMap filter ]}.

Definition resourceProxyRead : M error :=
  id ← Id;
  proxyRead {[ "proxyids" := VString id ]}.

Definition resourceProxyCreate : M error :=
  id ← Id;
  name ← GetString "name";
  operating_mode ← GetInt "operating_mode";
  description ← GetString "description";
  tls_connect ← GetInt "tls_connect";
  tls_accept ← GetInt "tls_accept";
  tls_issuer ← GetString "tls_issuer";
  tls_subject ← GetString "tls_subject";
  tls_psk_identity ← GetString "tls_psk_identity";
  tls_psk ← GetString "tls_psk";
  proxy_address ← GetString "proxy_address";
  let proxy := Proxy.Build id name operating_mode description tls_connect
                 tls_accept tls_issuer tls_subject tls_psk_identity tls_psk
                 proxy_address in
  let proxies := [proxy] in
  '(proxies, err) ← call (ProxiesCreate proxies);
  match err with
  | Some e => mret (Some e)
  | None =>
      created ← index0 proxies;
      SetId (Proxy.ProxyID created);;
      resourceProxyRead
  end.

Definition resourceProxyUpdate : M error :=
  id ← Id;
  name ← GetString "name";
  operating_mode ← GetInt "operating_mode";
  description ← GetString "description";
  tls_connect ← GetInt "tls_connect";
  tls_accept ← GetInt "tls_accept";
  tls_issuer ← GetString "tls_issuer";
  tls_subject ← GetString "tls_subject";
  tls_psk_identity ← GetString "tls_psk_identity";
  tls_psk ← GetString "tls_psk";
  proxy_address ← GetString "proxy_address";
  let proxy := Proxy.Build id name operating_mode description tls_connect
                 tls_accept tls_issuer tls_subject tls_psk_identity tls_psk
                 proxy_address in
  let proxies := [proxy] in
  err ← call (ProxiesUpdate proxies);
  match err with
  | Some e => mret (Some e)
  | None => resourceProxyRead
  end.

Definition resourceProxyDelete : M error :=
  id ← Id;
  call (ProxiesDeleteByIds [id]).

(** ** The resources registered with the framework *)

(** [schema.Resource]: the handlers and the type of every schema field. *)
Record Resource : Type := mkResource {
  Create : option (M error);
  Read : M error;
  Update : option (M error);
  Delete : option (M error);
  Schema : gmap string ValueType
}.

Definition resourceUser : Resource := {|
  Create := Some resourceUserCreate;
  Read := resourceUserRead;
  Update := Some resourceUserUpdate;
  Delete := Some resourceUserDelete;
  Schema := {[ "username" := TypeString; "password" := TypeString;
               "roleid" := TypeString; "name" := TypeString;
               "surname" := TypeString; "groups" := TypeSet ]}
|}.

Definition dataUser : Resource := {|
  Create := None; Read := dataUserRead; Update := None; Delete := None;
  Schema := {[ "username" := TypeString ]}
|}.

Definition resourceUserGroup : Resource := {|
  Create := Some resourceUserGroupCreate;
  Read := resourceUserGroupRead;
  Update := Some resourceUserGroupUpdate;
  Delete := Some resourceUserGroupDelete;
  Schema := {[ "name" := TypeString; "debug_mode" := TypeInt;
               "gui_access" := TypeInt; "status" := TypeInt;
               "host_permission" := TypeList ]}
|}.

Definition dataUserGroup : Resource := {|
  Create := None; Read := dataUserGroupRead; Update := None; Delete := None;
  Schema := {[ "name" := TypeString ]}
|}.

Definition resourceProxy : Resource := {|
  Create := Some resourceProxyCreate;
  Read := resourceProxyRead;
  Update := Some resourceProxyUpdate;
  Delete := Some resourceProxyDelete;
  Schema := {[ "name" := TypeString; "operating_mode" := TypeInt;
               "description" := TypeString; "tls_connect" := TypeInt;
               "tls_accept" := TypeInt; "tls_issuer" := TypeString;
               "tls_subject" := TypeString; "tls_psk_identity" := TypeString;
               "tls_psk" := TypeString; "proxy_address" := TypeString ]}
|}.

Definition dataProxy : Resource := {|
  Create := None; Read := dataProxyRead; Update := None; Delete := None;
  Schema := {[ "name" := TypeString ]}
|}.

(** Every handler the provider registers, and those that read. *)
Definition read_handlers : list (M error) :=
  [Read resourceUser; Read dataUser; Read resourceUserGroup;
   Read dataUserGroup; Read resourceProxy; Read dataProxy].

Definition create_handlers : list (M error) :=
  [resourceUserCreate; resourceUserGroupCreate; resourceProxyCreate].

Definition update_handlers : list (M error) :=
  [resourceUserUpdate; resourceUserGroupUpdate; resourceProxyUpdate].

Definition delete_handlers : list (M error) :=
  [resourceUserDelete; resourceUserGroupDelete; resourceProxyDelete].

Definition all_handlers : list (M error) :=
  create_handlers ++ read_handlers ++ update_handlers ++ delete_handlers.

(** ** Running a handler against a remote system *)

Inductive Outcome (A : Type) : Type :=
| Done (a : A)
| Panicked (why : string).

Arguments Done {A} a.
Arguments Panicked {A} why.

(** A remote call together with the reply it got. *)
Record Event : Type := Ev { ev_call : ApiCall; ev_reply : Reply ev_call }.

Definition ev_error (ev : Event) : error := reply_error (ev_call ev) (ev_reply ev).

(** The number of records a successful lookup returned. *)
Definition ev_found (ev : Event) : option nat :=
  match ev with
  | Ev (UsersGet _) (l, None) => Some (length l)
  | Ev (UserGroupsGet _) (l, None) => Some (length l)
  | Ev (ProxiesGet _) (l, None) => Some (length l)
  | _ => None
  end.

(** The remote system: a state [W] and an answer to every call. *)
Definition API (W : Type) : Type := forall c : ApiCall, W -> Reply c * W.

Record Run (W A : Type) : Type := mkRun {
  outcome : Outcome A;
  world : W;
  calls : list Event
}.

Arguments mkRun {W A} outcome world calls.
Arguments outcome {W A} r.
Arguments world {W A} r.
Arguments calls {W A} r.

Fixpoint interp {W A : Type} (api : API W) (p : Prog A) (w : W) : Run W A :=
  match p with
  | Ret a => mkRun (Done a) w []
  | Panic why => mkRun (Panicked why) w []
  | Call c k =>
      let '(r, w1) := api c w in
      let rest := interp api (k r) w1 in
      mkRun (outcome rest) (world rest) (Ev c r :: calls rest)
  end.

(** [h(d, m)]: the handler [h] on the local state [d], with the client [m]
    talking to the remote system [api] in state [w]. *)
Definition run {W : Type} (api : API W) (h : M error) (d : ResourceData) (w : W)
  : Run W (error * ResourceData) :=
  interp api (h d) w.

(** A property of every run of a program, whatever the remote system
    answers: [Q] holds of the calls made and of the outcome. *)
Fixpoint always {A : Type} (p : Prog A) (Q : list Event -> Outcome A -> Prop) : Prop :=
  match p with
  | Ret a => Q [] (Done a)
  | Panic why => Q [] (Panicked why)
  | Call c k => forall r : Reply c, always (k r) (fun l o => Q (Ev c r :: l) o)
  end.

(** ** A small remote system to run the handlers on

    It keeps the three tables; a lookup returns the whole table, a create
    call gives every item the identity [fresh] and stores it.  It answers
    [budget] calls and fails every later one. *)
Record Remote : Type := mkRemote {
  users : list User.t;
  usergroups : list UserGroup.t;
  proxies : list Proxy.t;
  fresh : string;
  budget : nat
}.

Definition unreachable : Err := client_error (-32500) "connection refused".

Definition spend (w : Remote) : Remote :=
  mkRemote (users w) (usergroups w) (proxies w) (fresh w) (pred (budget w)).

Definition with_id_user (id : string) (u : User.t) : User.t :=
  User.Build id (User.Username u) (User.Password u) (User.RoleID u)
    (User.Name u) (User.Surname u) (User.Groups u).

Definition with_id_usergroup (id : string) (g : UserGroup.t) : UserGroup.t :=
  UserGroup.Build id (UserGroup.Name g) (UserGroup.DebugMode g)
    (UserGroup.GUIAccess g) (UserGroup.Status g) (UserGroup.Permissions g).

Definition with_id_proxy (id : string) (p : Proxy.t) : Proxy.t :=
  Proxy.Build id (Proxy.Name p) (Proxy.OperatingMode p) (Proxy.Description p)
    (Proxy.TLSConnect p) (Proxy.TLSAccept p) (Proxy.TLSIssuer p)
    (Proxy.TLSSubject p) (Proxy.TLSPSKIdentity p) (Proxy.TLSPSK p)
    (Proxy.ProxyAddress p).

Definition server : API Remote := fun c w =>
  match budget w with
  | O =>
      match c return Reply c * Remote with
      | UsersCreate items => ((items, Some unreachable), w)
      | UsersGet _ => (([], Some unreachable), w)
      | UserGroupsCreate items => ((items, Some unreachable), w)
      | UserGroupsGet _ => (([], Some unreachable), w)
      | ProxiesCreate items => ((items, Some unreachable), w)
      | ProxiesGet _ => (([], Some unreachable), w)
      | UsersUpdate _ | UsersDeleteByIds _
      | UserGroupsUpdate _ | UserGroupsDeleteByIds _
      | ProxiesUpdate _ | ProxiesDeleteByIds _ => (Some unreachable, w)
      end
  | S n =>
      let w := spend w in
      match c return Reply c * Remote with
      | UsersCreate items =>
          let items := with_id_user (fresh w) <$> items in
          ((items, None),
           mkRemote (users w ++ items) (usergroups w) (proxies w) (fresh w) (budget w))
      | UsersGet _ => ((users w, None), w)
      | UsersUpdate items =>
          (None, mkRemote items (usergroups w) (proxies w) (fresh w) (budget w))
      | UsersDeleteByIds _ =>
          (None, mkRemote [] (usergroups w) (proxies w) (fresh w) (budget w))
      | UserGroupsCreate items =>
          let items := with_id_usergroup (fresh w) <$> items in
          ((items, None),
           mkRemote (users w) (usergroups w ++ items) (proxies w) (fresh w) (budget w))
      | UserGroupsGet _ => ((usergroups w, None), w)
      | UserGroupsUpdate items =>
          (None, mkRemote (users w) items (proxies w) (fresh w) (budget w))
      | UserGroupsDeleteByIds _ =>
          (None, mkRemote (users w) [] (proxies w) (fresh w) (budget w))
      | ProxiesCreate items =>
          let items := with_id_proxy (fresh w) <$> items in
          ((items, None),
           mkRemote (users w) (usergroups w) (proxies w ++ items) (fresh w) (budget w))
      | ProxiesGet _ => ((proxies w, None), w)
      | ProxiesUpdate items =>
          (None, mkRemote (users w) (usergroups w) items (fresh w) (budget w))
      | ProxiesDeleteByIds _ =>
          (None, mkRemote (users w) (usergroups w) [] (fresh w) (budget w))
      end
  end.

(** Sample records and local states. *)
Definition alice : User.t :=
  User.Build "7" "alice" "s3cret" "2" "Alice" "Liddell" [UserGroupID.Build "13"].
Definition bob : User.t :=
  User.Build "8" "bob" "hunter2" "1" "Bob" "Builder" [].
Definition operators : UserGroup.t :=
  UserGroup.Build "13" "Operators" 0 1 0 [UserGroupPermission.Build "4" 3].
Definition guests : UserGroup.t :=
  UserGroup.Build "14" "Guests" 0 0 1 [].
Definition edge : Proxy.t :=
  Proxy.Build "10084" "edge-1" 1 "edge site" 2 3 "" "" "edge-psk" "0f0f" "10.0.0.1,edge.example".
Definition core : Proxy.t :=
  Proxy.Build "10085" "core-1" 0 "" 1 1 "" "" "" "" "".

Definition empty_remote : Remote := mkRemote [] [] [] "42" 8.

Definition user_state : ResourceData :=
  mkResourceData (Schema resourceUser) "7"
    {[ "username" := VString "al"; "password" := VString "old-pw";
       "roleid" := VString "3"; "groups" := VSet ["5"; "6"] ]}.

Definition usergroup_state : ResourceData :=
  mkResourceData (Schema resourceUserGroup) "13"
    {[ "name" := VString "Ops"; "gui_access" := VInt 2;
       "host_permission" :=
         VList [VMap {[ "id" := VString "4"; "permission" := VInt 3 ]};
                VMap {[ "id" := VString "9"; "permission" := VInt 0 ]}] ]}.

Definition proxy_state : ResourceData :=
  mkResourceData (Schema resourceProxy) ""
    {[ "name" := VString "edge-1"; "operating_mode" := VInt 1;
       "tls_connect" := VInt 1; "tls_accept" := VInt 1 ]}.

Definition proxy_lookup_unnamed : ResourceData :=
  mkResourceData (Schema dataProxy) "" ∅.

(** * Properties *)

Arguments get : simpl never.
Arguments set_field : simpl never.
Arguments set_id : simpl never.

(** ** Reasoning about every run *)

(** Unfolds the monad's operations, leaving a tree to walk through. *)
Tactic Notation "exec" "in" hyp(H) :=
  repeat progress
    (cbv [mbind mret M_bind M_ret Get GetOk GetString GetInt Id SetId SetField
          call panic index0] in H;
     cbn [pbind always interp for_range fst snd outcome calls world
          assert_string assert_int assert_list assert_map assert_set] in H).

Ltac exec :=
  repeat progress
    (cbv [mbind mret M_bind M_ret Get GetOk GetString GetInt Id SetId SetField
          call panic index0];
     cbn [pbind always interp for_range fst snd outcome calls world
          assert_string assert_int assert_list assert_map assert_set]).

Lemma always_mono {A : Type} (p : Prog A) (Q Q' : list Event -> Outcome A -> Prop) :
  (forall l o, Q l o -> Q' l o) -> always p Q -> always p Q'.
Proof.
  revert Q Q'. induction p as [a|why|c k IH]; intros Q Q' HQ; cbn; auto.
  intros Hk r. eapply IH; [|apply Hk]. cbn. auto.
Qed.

(** What holds of every run holds of the run against any remote system. *)
Lemma always_run {W A : Type} (api : API W) (p : Prog A) Q w :
  always p Q -> Q (calls (interp api p w)) (outcome (interp api p w)).
Proof.
  revert Q w. induction p as [a|why|c k IH]; intros Q w HQ; cbn in *; try done.
  destruct (api c w) as [r w1]. cbn.
  by apply (IH r (fun l o => Q (Ev c r :: l) o)).
Qed.

Lemma always_bind {A B : Type} (p : Prog A) (f : A -> Prog B) Q :
  always p (fun l o =>
    match o with
    | Done a => always (f a) (fun l' o' => Q (l ++ l') o')
    | Panicked why => Q l (Panicked why)
    end) ->
  always (pbind p f) Q.
Proof.
  revert Q. induction p as [a|why|c k IH]; intros Q; cbn; [done..|].
  intros Hk r. apply IH, Hk.
Qed.

(** ** The store *)

Lemma set_field_schema key v d : rd_schema (set_field key v d) = rd_schema d.
Proof. unfold set_field. destruct (rd_schema d !! key); [case_decide|]; done. Qed.

Lemma set_field_id key v d : rd_id (set_field key v d) = rd_id d.
Proof. unfold set_field. destruct (rd_schema d !! key); [case_decide|]; done. Qed.

Lemma set_field_other key v d k :
  k ≠ key -> rd_attrs (set_field key v d) !! k = rd_attrs d !! k.
Proof.
  intros Hne. unfold set_field.
  destruct (rd_schema d !! key); [case_decide|]; cbn; try done.
  by rewrite lookup_insert_ne.
Qed.

Lemma set_field_same key v d t :
  rd_schema d !! key = Some t -> type_of v = Some t ->
  rd_attrs (set_field key v d) !! key = Some v.
Proof.
  intros Hs Ht. unfold set_field. rewrite Hs.
  case_decide; [|done]. cbn. by rewrite lookup_insert_eq.
Qed.

Lemma get_set_field_same key v d t :
  rd_schema d !! key = Some t -> type_of v = Some t ->
  get key (set_field key v d) = v.
Proof. intros Hs Ht. unfold get. by rewrite (set_field_same _ _ _ t). Qed.

Lemma get_set_field_other key v d k :
  k ≠ key -> get k (set_field key v d) = get k d.
Proof.
  intros Hne. unfold get. by rewrite set_field_other, set_field_schema.
Qed.

Lemma get_set_id key v d : get key (set_id v d) = get key d.
Proof. done. Qed.

Lemma set_id_schema v d : rd_schema (set_id v d) = rd_schema d.
Proof. done. Qed.

Lemma set_id_attrs v d : rd_attrs (set_id v d) = rd_attrs d.
Proof. done. Qed.

(** A store is well typed when every field it holds is a schema field and
    holds a value of its type, as the framework has it. *)
Definition well_typed (d : ResourceData) : Prop :=
  map_Forall (fun k v => is_Some (type_of v) /\ rd_schema d !! k = type_of v)
    (rd_attrs d).

Lemma get_well_typed key t d :
  well_typed d -> rd_schema d !! key = Some t -> type_of (get key d) = Some t.
Proof.
  intros Hwt Hs. unfold get. destruct (rd_attrs d !! key) as [v|] eqn:Hv.
  - destruct (Hwt _ _ Hv) as [_ Heq]. congruence.
  - rewrite Hs. by destruct t.
Qed.

Lemma well_typed_set_id v d : well_typed d -> well_typed (set_id v d).
Proof. done. Qed.

Lemma well_typed_set_field key v d : well_typed d -> well_typed (set_field key v d).
Proof.
  intros Hwt. unfold set_field.
  destruct (rd_schema d !! key) as [t|] eqn:Hs; [|done].
  case_decide as Ht; [|done].
  unfold well_typed. cbn. apply map_Forall_insert_2; [|done].
  rewrite Ht. split; [by eexists|done].
Qed.

Lemma type_string v : type_of v = Some TypeString -> exists s, v = VString s.
Proof. destruct v; cbn; intros; simplify_eq; eauto. Qed.

Lemma type_int v : type_of v = Some TypeInt -> exists z, v = VInt z.
Proof. destruct v; cbn; intros; simplify_eq; eauto. Qed.

Lemma type_list v : type_of v = Some TypeList -> exists l, v = VList l.
Proof. destruct v; cbn; intros; simplify_eq; eauto. Qed.

Lemma type_set v : type_of v = Some TypeSet -> exists l, v = VSet l.
Proof. destruct v; cbn; intros; simplify_eq; eauto. Qed.

(** ** What a read does, reply by reply *)

(** The local state after a record has been read into it. *)
Definition user_populated (t : User.t) (d : ResourceData) : ResourceData :=
  set_field "surname" (VString (User.Surname t))
    (set_field "name" (VString (User.Name t))
      (set_field "roleid" (VString (User.RoleID t))
        (set_field "username" (VString (User.Username t))
          (set_id (User.UserID t) d)))).

Definition usergroup_populated (t : UserGroup.t) (d : ResourceData) : ResourceData :=
  set_field "status" (VInt (UserGroup.Status t))
    (set_field "gui_access" (VInt (UserGroup.GUIAccess t))
      (set_field "debug_mode" (VInt (UserGroup.DebugMode t))
        (set_field "name" (VString (UserGroup.Name t))
          (set_id (UserGroup.UserGroupID t) d)))).

Definition proxy_populated (p : Proxy.t) (d : ResourceData) : ResourceData :=
  set_field "proxy_address" (VString (Proxy.ProxyAddress p))
    (set_field "tls_psk" (VString (Proxy.TLSPSK p))
      (set_field "tls_psk_identity" (VString (Proxy.TLSPSKIdentity p))
        (set_field "tls_subject" (VString (Proxy.TLSSubject p))
          (set_field "tls_issuer" (VString (Proxy.TLSIssuer p))
            (set_field "tls_accept" (VInt (Proxy.TLSAccept p))
              (set_field "tls_connect" (VInt (Proxy.TLSConnect p))
                (set_field "description" (VString (Proxy.Description p))
                  (set_field "operating_mode" (VInt (Proxy.OperatingMode p))
                    (set_field "name" (VString (Proxy.Name p))
                      (set_id (Proxy.ProxyID p) d)))))))))).

(** The result of a read whose lookup was answered with [rs] and [err]. *)
Definition read_result {R : Type} (many : string)
    (populated : R -> ResourceData -> ResourceData)
    (d : ResourceData) (rs : list R) (err : error) : error * ResourceData :=
  match err with
  | Some e => (Some e, d)
  | None =>
      match rs with
      | [] => (None, set_id "" d)
      | [t] => (None, populated t d)
      | _ :: _ :: _ => (Some (errors_New many), d)
      end
  end.

Lemma userRead_always params d :
  always (userRead params d) (fun l o => exists rs err,
    l = [Ev (UsersGet params) (rs, err)] /\
    o = Done (read_result "multiple Users found" user_populated d rs err)).
Proof.
  intros [rs [e|]]; [|destruct rs as [|t [|t' rs]]]; cbn; by do 2 eexists.
Qed.

Lemma userGroupRead_always params d :
  always (userGroupRead params d) (fun l o => exists rs err,
    l = [Ev (UserGroupsGet params) (rs, err)] /\
    o = Done (read_result "multiple UserGroups found" usergroup_populated d rs err)).
Proof.
  intros [rs [e|]]; [|destruct rs as [|t [|t' rs]]]; cbn; by do 2 eexists.
Qed.

Lemma proxyRead_always params d :
  always (proxyRead params d) (fun l o => exists rs err,
    l = [Ev (ProxiesGet params) (rs, err)] /\
    o = Done (read_result "multiple proxys found" proxy_populated d rs err)).
Proof.
  intros [rs [e|]]; [|destruct rs as [|t [|t' rs]]]; cbn; by do 2 eexists.
Qed.

(** What every run of a read handler looks like: either no call at all
    (the proxy data source without a lookup attribute), or one lookup. *)
Inductive read_run (d : ResourceData) : list Event -> Outcome (error * ResourceData) -> Prop :=
| read_run_user params rs err :
    read_run d [Ev (UsersGet params) (rs, err)]
      (Done (read_result "multiple Users found" user_populated d rs err))
| read_run_usergroup params rs err :
    read_run d [Ev (UserGroupsGet params) (rs, err)]
      (Done (read_result "multiple UserGroups found" usergroup_populated d rs err))
| read_run_proxy params rs err :
    read_run d [Ev (ProxiesGet params) (rs, err)]
      (Done (read_result "multiple proxys found" proxy_populated d rs err))
| read_run_no_attribute :
    read_run d [] (Done (Some (errors_New "no proxy lookup attribute"), d)).

Lemma read_handlers_always h d :
  In h read_handlers -> always (h d) (read_run d).
Proof.
  intros Hh. cbn in Hh.
  destruct Hh as [<-|[<-|[<-|[<-|[<-|[<-|[]]]]]]].
  - eapply always_mono; [|apply userRead_always].
    intros l o (rs & err & -> & ->). constructor.
  - eapply always_mono; [|apply userRead_always].
    intros l o (rs & err & -> & ->). constructor.
  - eapply always_mono; [|apply userGroupRead_always].
    intros l o (rs & err & -> & ->). constructor.
  - eapply always_mono; [|apply userGroupRead_always].
    intros l o (rs & err & -> & ->). constructor.
  - eapply always_mono; [|apply proxyRead_always].
    intros l o (rs & err & -> & ->). constructor.
  - unfold Read, dataProxy, dataProxyRead. exec.
    destruct (is_zero (get "name" d)); cbn [negb].
    + constructor.
    + eapply always_mono; [|apply proxyRead_always].
      intros l o (rs & err & -> & ->). constructor.
Qed.

Lemma read_handlers_run {W : Type} (api : API W) h d w :
  In h read_handlers ->
  read_run d (calls (run api h d w)) (outcome (run api h d w)).
Proof.
  intros Hh. apply (always_run api (h d) (read_run d) w).
  by apply read_handlers_always.
Qed.

(** Case analysis on a run of a read handler. *)
Ltac read_cases api h d w Hh :=
  let Hr := fresh "Hr" in
  pose proof (read_handlers_run api h d w Hh) as Hr; revert Hr;
  generalize (outcome (run api h d w)) (calls (run api h d w));
  intros ? ? Hr; destruct Hr as [? rs err|? rs err|? rs err|].

(** The text of the error a read makes up when a lookup finds several
    records. *)
Definition many_text (c : ApiCall) : string :=
  match c with
  | UsersGet _ => "multiple Users found"
  | UserGroupsGet _ => "multiple UserGroups found"
  | ProxiesGet _ => "multiple proxys found"
  | _ => ""
  end.

(** More sample remote systems. *)
Definition crowded_remote : Remote :=
  mkRemote [alice; bob] [operators; guests] [edge; core] "42" 8.

Definition single_remote : Remote :=
  mkRemote [alice] [operators] [edge] "42" 8.

Definition fading_remote : Remote := mkRemote [] [] [] "42" 1.

Definition down_remote : Remote := mkRemote [alice] [operators] [edge] "42" 0.

(** ** C1: a read that finds no record, or several *)

(** The claim as the specification words it: a lookup that succeeds with
    zero or with more than one record leaves an empty identity. *)
Definition invalidated_unless_single {W : Type} (api : API W) (h : M error)
    (d : ResourceData) (w : W) : Prop :=
  forall ev n,
    In ev (calls (run api h d w)) -> ev_found ev = Some n -> n ≠ 1%nat ->
    exists e d', outcome (run api h d w) = Done (e, d') /\ rd_id d' = "".

(** C1, as stated, fails: reading user "7" when the lookup returns two
    users keeps the identity "7". *)
Lemma read_many_keeps_identity :
  ~ invalidated_unless_single server resourceUserRead user_state crowded_remote.
Proof.
  intros H.
  destruct (H (Ev (UsersGet {[ "userids" := VString "7" ]}) ([alice; bob], None)) 2%nat)
    as (e & d' & Ho & Hid).
  - left. reflexivity.
  - reflexivity.
  - discriminate.
  - vm_compute in Ho. injection Ho as _ Hd. subst d'. discriminate Hid.
Qed.

(** C1, amended: for every read handler, a lookup that succeeds with zero
    records leaves the identity empty; a lookup that succeeds with more
    than one record returns an error and leaves the whole local state,
    identity included, as it was. *)
Theorem read_zero_or_many {W : Type} (api : API W) h d w ev n :
  In h read_handlers ->
  In ev (calls (run api h d w)) -> ev_found ev = Some n ->
  (n = 0%nat ->
     outcome (run api h d w) = Done (None, set_id "" d) /\
     rd_id (set_id "" d) = "") /\
  ((n > 1)%nat ->
     exists e, outcome (run api h d w) = Done (Some e, d)).
Proof.
  intros Hh. read_cases api h d w Hh; intros Hin Hn;
    try (destruct Hin as [<-|[]]; cbn in Hn; destruct err; simplify_eq;
         destruct rs as [|t [|t' rs]]; cbn;
         split; intros Hlen; try done; try (by eexists); cbn in Hlen; lia).
  destruct Hin.
Qed.

Lemma read_zero_or_many_witness :
  (exists e, outcome (run server resourceProxyRead proxy_state crowded_remote)
             = Done (Some e, proxy_state)) /\
  outcome (run server dataUserGroupRead usergroup_state empty_remote)
  = Done (None, set_id "" usergroup_state).
Proof.
  split.
  - apply (read_zero_or_many server resourceProxyRead proxy_state crowded_remote
             (Ev (ProxiesGet {[ "proxyids" := VString "" ]}) ([edge; core], None))
             2%nat).
    + do 4 right. left. reflexivity.
    + left. reflexivity.
    + reflexivity.
    + lia.
  - apply (read_zero_or_many server dataUserGroupRead usergroup_state empty_remote
             (Ev (UserGroupsGet {[ "filter" := VMap {[ "name" := VString "Ops" ]} ]})
                ([], None)) 0%nat).
    + do 3 right. left. reflexivity.
    + left. reflexivity.
    + reflexivity.
    + reflexivity.
Defined.

(** ** C3: several matches fail *)

(** C3: for every read handler, when the lookup succeeds and returns more
    than one record, the handler returns the error it makes up itself,
    "multiple Users found", "multiple UserGroups found" or "multiple proxys
    found". *)
Theorem read_many_fails {W : Type} (api : API W) h d w ev n :
  In h read_handlers ->
  In ev (calls (run api h d w)) -> ev_found ev = Some n -> (n > 1)%nat ->
  exists d', outcome (run api h d w)
             = Done (Some (errors_New (many_text (ev_call ev))), d') /\
    In (many_text (ev_call ev))
      ["multiple Users found"; "multiple UserGroups found"; "multiple proxys found"].
Proof.
  intros Hh. read_cases api h d w Hh; intros Hin Hn Hlen;
    try (destruct Hin as [<-|[]]; cbn in Hn; destruct err; simplify_eq;
         destruct rs as [|t [|t' rs]]; cbn in Hlen; try lia;
         eexists; split; [reflexivity|cbn; tauto]).
  destruct Hin.
Qed.

Lemma read_many_fails_witness :
  exists d', outcome (run server resourceUserRead user_state crowded_remote)
             = Done (Some (errors_New "multiple Users found"), d').
Proof.
  destruct (read_many_fails server resourceUserRead user_state crowded_remote
              (Ev (UsersGet {[ "userids" := VString "7" ]}) ([alice; bob], None))
              2%nat) as (d' & Ho & _).
  - left. reflexivity.
  - left. reflexivity.
  - reflexivity.
  - lia.
  - exists d'. exact Ho.
Defined.

(** ** C4: no match clears the identity *)

(** C4: for every read handler, when the lookup succeeds and returns no
    record, the handler sets the identity to the empty string, touches
    nothing else, and returns no error. *)
Theorem read_zero_clears_identity {W : Type} (api : API W) h d w ev :
  In h read_handlers ->
  In ev (calls (run api h d w)) -> ev_found ev = Some 0%nat ->
  exists d', outcome (run api h d w) = Done (None, d') /\
    rd_id d' = "" /\ rd_attrs d' = rd_attrs d /\ rd_schema d' = rd_schema d.
Proof.
  intros Hh. read_cases api h d w Hh; intros Hin Hn;
    try (destruct Hin as [<-|[]]; cbn in Hn; destruct err; simplify_eq;
         destruct rs as [|t [|t' rs]]; simplify_eq;
         by exists (set_id "" d)).
  destruct Hin.
Qed.

Lemma read_zero_clears_identity_witness :
  exists d', outcome (run server resourceUserRead user_state empty_remote)
             = Done (None, d') /\ rd_id d' = "".
Proof.
  destruct (read_zero_clears_identity server resourceUserRead user_state empty_remote
              (Ev (UsersGet {[ "userids" := VString "7" ]}) ([], None)))
    as (d' & Ho & Hid & _).
  - left. reflexivity.
  - left. reflexivity.
  - reflexivity.
  - exists d'. split; [exact Ho|exact Hid].
Defined.

(** ** C5: one match populates the local state *)

(** The records a successful lookup returned. *)
Definition ev_users (ev : Event) : option (list User.t) :=
  match ev with
  | Ev (UsersGet _) (l, None) => Some l
  | _ => None
  end.

Definition ev_usergroups (ev : Event) : option (list UserGroup.t) :=
  match ev with
  | Ev (UserGroupsGet _) (l, None) => Some l
  | _ => None
  end.

Definition ev_proxies (ev : Event) : option (list Proxy.t) :=
  match ev with
  | Ev (ProxiesGet _) (l, None) => Some l
  | _ => None
  end.

(** The field of a remote record that corresponds to each schema field:
    the pairing the create and update handlers use to build a request. *)
Definition user_fields (t : User.t) : gmap string Value :=
  {[ "username" := VString (User.Username t);
     "password" := VString (User.Password t);
     "roleid" := VString (User.RoleID t);
     "name" := VString (User.Name t);
     "surname" := VString (User.Surname t);
     "groups" := VSet (UserGroupID.UserGroupID <$> User.Groups t) ]}.

Definition permission_entry (p : UserGroupPermission.t) : Value :=
  VMap {[ "id" := VString (UserGroupPermission.ID p);
          "permission" := VInt (UserGroupPermission.Permission p) ]}.

Definition usergroup_fields (t : UserGroup.t) : gmap string Value :=
  {[ "name" := VString (UserGroup.Name t);
     "debug_mode" := VInt (UserGroup.DebugMode t);
     "gui_access" := VInt (UserGroup.GUIAccess t);
     "status" := VInt (UserGroup.Status t);
     "host_permission" := VList (permission_entry <$> UserGroup.Permissions t) ]}.

Definition proxy_fields (p : Proxy.t) : gmap string Value :=
  {[ "name" := VString (Proxy.Name p);
     "operating_mode" := VInt (Proxy.OperatingMode p);
     "description" := VString (Proxy.Description p);
     "tls_connect" := VInt (Proxy.TLSConnect p);
     "tls_accept" := VInt (Proxy.TLSAccept p);
     "tls_issuer" := VString (Proxy.TLSIssuer p);
     "tls_subject" := VString (Proxy.TLSSubject p);
     "tls_psk_identity" := VString (Proxy.TLSPSKIdentity p);
     "tls_psk" := VString (Proxy.TLSPSK p);
     "proxy_address" := VString (Proxy.ProxyAddress p) ]}.

(** Splits [is_Some (m !! k)], for a map [m] written out in full, into one
    case per key. *)
Ltac key_cases H :=
  repeat (apply lookup_insert_is_Some in H as [<-|[_ H]]);
  try (apply lookup_singleton_is_Some in H as <-);
  try (rewrite lookup_empty in H; by destruct H).

(** Looks a key up in a populated state, one [d.Set] at a time. *)
Ltac look_up_populated Hs :=
  repeat first
    [ rewrite set_field_other by done
    | erewrite set_field_same;
        [|rewrite ?set_field_schema, set_id_schema, Hs; reflexivity
         |reflexivity] ].

Lemma user_populated_fields t d k :
  rd_schema d = Schema resourceUser \/ rd_schema d = Schema dataUser ->
  is_Some (rd_schema d !! k) -> k ≠ "password" -> k ≠ "groups" ->
  rd_attrs (user_populated t d) !! k = user_fields t !! k.
Proof.
  intros [Hs|Hs] Hk Hp Hg; rewrite Hs in Hk; cbn in Hk; key_cases Hk;
    try done; unfold user_populated; look_up_populated Hs; reflexivity.
Qed.

Lemma usergroup_populated_fields t d k :
  rd_schema d = Schema resourceUserGroup \/ rd_schema d = Schema dataUserGroup ->
  is_Some (rd_schema d !! k) -> k ≠ "host_permission" ->
  rd_attrs (usergroup_populated t d) !! k = usergroup_fields t !! k.
Proof.
  intros [Hs|Hs] Hk Hp; rewrite Hs in Hk; cbn in Hk; key_cases Hk;
    try done; unfold usergroup_populated; look_up_populated Hs; reflexivity.
Qed.

Lemma proxy_populated_fields p d k :
  rd_schema d = Schema resourceProxy \/ rd_schema d = Schema dataProxy ->
  is_Some (rd_schema d !! k) ->
  rd_attrs (proxy_populated p d) !! k = proxy_fields p !! k.
Proof.
  intros [Hs|Hs] Hk; rewrite Hs in Hk; cbn in Hk; key_cases Hk;
    unfold proxy_populated; look_up_populated Hs; reflexivity.
Qed.

(** The resources and data sources the provider registers. *)
Definition registered : list Resource :=
  [resourceUser; dataUser; resourceUserGroup; dataUserGroup; resourceProxy; dataProxy].

Lemma user_reads_run {W : Type} (api : API W) h d w :
  In h [Read resourceUser; Read dataUser] ->
  exists params rs err,
    calls (run api h d w) = [Ev (UsersGet params) (rs, err)] /\
    outcome (run api h d w)
    = Done (read_result "multiple Users found" user_populated d rs err).
Proof.
  intros [<-|[<-|[]]];
    match goal with |- context [run api ?h d w] =>
      destruct (always_run api (h d) _ w (userRead_always _ d))
        as (rs & err & Hc & Ho) end; eauto.
Qed.

Lemma usergroup_reads_run {W : Type} (api : API W) h d w :
  In h [Read resourceUserGroup; Read dataUserGroup] ->
  exists params rs err,
    calls (run api h d w) = [Ev (UserGroupsGet params) (rs, err)] /\
    outcome (run api h d w)
    = Done (read_result "multiple UserGroups found" usergroup_populated d rs err).
Proof.
  intros [<-|[<-|[]]];
    match goal with |- context [run api ?h d w] =>
      destruct (always_run api (h d) _ w (userGroupRead_always _ d))
        as (rs & err & Hc & Ho) end; eauto.
Qed.

Lemma proxy_reads_run {W : Type} (api : API W) h d w :
  In h [Read resourceProxy; Read dataProxy] ->
  (calls (run api h d w) = [] /\
   outcome (run api h d w)
   = Done (Some (errors_New "no proxy lookup attribute"), d)) \/
  exists params rs err,
    calls (run api h d w) = [Ev (ProxiesGet params) (rs, err)] /\
    outcome (run api h d w)
    = Done (read_result "multiple proxys found" proxy_populated d rs err).
Proof.
  intros [<-|[<-|[]]].
  - right. destruct (always_run api (resourceProxyRead d) _ w (proxyRead_always _ d))
      as (rs & err & Hc & Ho); eauto.
  - unfold run, Read, dataProxy, dataProxyRead. exec.
    destruct (is_zero (get "name" d)); cbn [negb].
    + left. cbn. done.
    + right. destruct (always_run api _ _ w (proxyRead_always
        {[ "filter" := VMap {[ "name" := get "name" d ]} ]} d))
        as (rs & err & Hc & Ho); eauto.
Qed.

Lemma user_populated_id t d : rd_id (user_populated t d) = User.UserID t.
Proof. unfold user_populated. by rewrite !set_field_id. Qed.

Lemma usergroup_populated_id t d :
  rd_id (usergroup_populated t d) = UserGroup.UserGroupID t.
Proof. unfold usergroup_populated. by rewrite !set_field_id. Qed.

Lemma proxy_populated_id p d : rd_id (proxy_populated p d) = Proxy.ProxyID p.
Proof. unfold proxy_populated. by rewrite !set_field_id. Qed.

(** Settles a read whose single lookup is known. *)
Ltac populate :=
  let Hs := fresh "Hs" in
  intros Hs [<-|[]]; split_and!; intros ? Hev; cbn in Hev;
  match goal with err : error |- _ => destruct err end; simplify_eq;
  cbn [read_result]; eexists; (split_and!; try reflexivity);
  try apply user_populated_id; try apply usergroup_populated_id;
  try apply proxy_populated_id; rewrite <- Hs; intros;
  first [ apply user_populated_fields; by auto
        | apply usergroup_populated_fields; by auto
        | apply proxy_populated_fields; by auto ].

(** The claim as the specification words it, for users: a read that finds
    one record sets the identity and every schema field from the record. *)
Definition read_sets_every_schema_field {W : Type} (api : API W) (res : Resource)
    (d : ResourceData) (w : W) : Prop :=
  forall ev t,
    In ev (calls (run api (Read res) d w)) -> ev_users ev = Some [t] ->
    exists d', outcome (run api (Read res) d w) = Done (None, d') /\
      rd_id d' = User.UserID t /\
      forall k, is_Some (Schema res !! k) -> rd_attrs d' !! k = user_fields t !! k.

(** C5, as stated, fails: reading user "7" keeps the local password
    "old-pw" and the local groups, whatever the record holds. *)
Lemma read_keeps_local_password :
  ~ read_sets_every_schema_field server resourceUser user_state single_remote.
Proof.
  intros H.
  destruct (H (Ev (UsersGet {[ "userids" := VString "7" ]}) ([alice], None)) alice)
    as (d' & Ho & _ & Hk).
  - left. reflexivity.
  - reflexivity.
  - specialize (Hk "password"). vm_compute in Ho. injection Ho as <-.
    vm_compute in Hk. specialize (Hk (ex_intro _ _ eq_refl)). discriminate Hk.
Qed.

(** C5, amended: for every registered read handler, on a local state of
    its schema, when the lookup succeeds and returns exactly one record the
    handler returns no error, sets the identity to the record's id, and
    sets from the corresponding field of the record every schema field
    other than the user's password and groups and the user group's
    host_permission. *)
Theorem read_single_populates {W : Type} (api : API W) res d w ev :
  In res registered -> rd_schema d = Schema res ->
  In ev (calls (run api (Read res) d w)) ->
  (forall t, ev_users ev = Some [t] ->
     exists d', outcome (run api (Read res) d w) = Done (None, d') /\
       rd_id d' = User.UserID t /\
       forall k, is_Some (Schema res !! k) -> k ≠ "password" -> k ≠ "groups" ->
         rd_attrs d' !! k = user_fields t !! k) /\
  (forall t, ev_usergroups ev = Some [t] ->
     exists d', outcome (run api (Read res) d w) = Done (None, d') /\
       rd_id d' = UserGroup.UserGroupID t /\
       forall k, is_Some (Schema res !! k) -> k ≠ "host_permission" ->
         rd_attrs d' !! k = usergroup_fields t !! k) /\
  (forall p, ev_proxies ev = Some [p] ->
     exists d', outcome (run api (Read res) d w) = Done (None, d') /\
       rd_id d' = Proxy.ProxyID p /\
       forall k, is_Some (Schema res !! k) ->
         rd_attrs d' !! k = proxy_fields p !! k).
Proof.
  intros Hres Hs. cbn in Hres.
  destruct Hres as [<-|[<-|[<-|[<-|[<-|[<-|[]]]]]]].
  - destruct (user_reads_run api (Read resourceUser) d w)
      as (params & rs & err & -> & ->); [cbn; tauto|]. revert Hs. populate.
  - destruct (user_reads_run api (Read dataUser) d w)
      as (params & rs & err & -> & ->); [cbn; tauto|]. revert Hs. populate.
  - destruct (usergroup_reads_run api (Read resourceUserGroup) d w)
      as (params & rs & err & -> & ->); [cbn; tauto|]. revert Hs. populate.
  - destruct (usergroup_reads_run api (Read dataUserGroup) d w)
      as (params & rs & err & -> & ->); [cbn; tauto|]. revert Hs. populate.
  - destruct (proxy_reads_run api (Read resourceProxy) d w)
      as [[-> ->]|(params & rs & err & -> & ->)]; [cbn; tauto|intros []|].
    revert Hs. populate.
  - destruct (proxy_reads_run api (Read dataProxy) d w)
      as [[-> ->]|(params & rs & err & -> & ->)]; [cbn; tauto|intros []|].
    revert Hs. populate.
Qed.

Lemma read_single_populates_witness :
  exists d', outcome (run server resourceUserRead user_state single_remote)
             = Done (None, d') /\
    rd_id d' = "7" /\ rd_attrs d' !! "username" = Some (VString "alice").
Proof.
  destruct (read_single_populates server resourceUser user_state single_remote
              (Ev (UsersGet {[ "userids" := VString "7" ]}) ([alice], None)))
    as [Hu _].
  - left. reflexivity.
  - reflexivity.
  - left. reflexivity.
  - destruct (Hu alice eq_refl) as (d' & Ho & Hid & Hk).
    exists d'. split_and!; [exact Ho|exact Hid|].
    apply (Hk "username"); [by eexists|done|done].
Defined.

(** ** C10: what a user read leaves alone *)

(** C10: a user read that finds exactly one record writes the identity and
    the fields username, roleid, name and surname only: every other field
    of the local state, password and groups among them, keeps the value it
    had. *)
Theorem user_read_frame {W : Type} (api : API W) h d w ev t :
  In h [Read resourceUser; Read dataUser] ->
  In ev (calls (run api h d w)) -> ev_users ev = Some [t] ->
  exists d', outcome (run api h d w) = Done (None, d') /\
    rd_schema d' = rd_schema d /\
    (forall k, k ∉ ["username"; "roleid"; "name"; "surname"] ->
       rd_attrs d' !! k = rd_attrs d !! k) /\
    get "password" d' = get "password" d /\
    get "groups" d' = get "groups" d.
Proof.
  intros Hh.
  destruct (user_reads_run api h d w Hh) as (params & rs & err & -> & ->).
  intros [<-|[]] Hev. cbn in Hev. destruct err; simplify_eq. cbn [read_result].
  exists (user_populated t d). unfold user_populated. split_and!.
  - reflexivity.
  - by rewrite !set_field_schema.
  - intros k Hk. rewrite !not_elem_of_cons in Hk.
    destruct Hk as (? & ? & ? & ? & _). by rewrite !set_field_other.
  - by rewrite !get_set_field_other.
  - by rewrite !get_set_field_other.
Qed.

Lemma user_read_frame_witness :
  exists d', outcome (run server resourceUserRead user_state single_remote)
             = Done (None, d') /\
    get "password" d' = VString "old-pw" /\ get "groups" d' = VSet ["5"; "6"].
Proof.
  destruct (user_read_frame server resourceUserRead user_state single_remote
              (Ev (UsersGet {[ "userids" := VString "7" ]}) ([alice], None)) alice)
    as (d' & Ho & _ & _ & Hp & Hg).
  - left. reflexivity.
  - left. reflexivity.
  - reflexivity.
  - exists d'. split_and!; [exact Ho|by rewrite Hp|by rewrite Hg].
Defined.

(** ** C6: host permissions become request objects *)

(** An entry of the host_permission list as its element schema has it: a
    map with a string under "id" and an int under "permission". *)
Definition entry_ok (v : Value) : Prop :=
  exists m id level, v = VMap m /\
    m !! "id" = Some (VString id) /\ m !! "permission" = Some (VInt level).

(** The request object [req] carries the id and the permission of [v]. *)
Definition entry_of (v : Value) (req : UserGroupPermission.t) : Prop :=
  exists m, v = VMap m /\
    m !! "id" = Some (VString (UserGroupPermission.ID req)) /\
    m !! "permission" = Some (VInt (UserGroupPermission.Permission req)).

Lemma permissions_loop d entries :
  Forall entry_ok entries ->
  forall i acc, exists reqs,
    for_range (fun (_ : nat) entry (permissionsRequests : list UserGroupPermission.t) =>
        permission ← assert_map entry;
        id ← assert_string (index_map permission "id");
        level ← assert_int (index_map permission "permission");
        let permissionsRequest := UserGroupPermission.Build id level in
        mret (permissionsRequests ++ [permissionsRequest]))
      i entries acc d
    = Ret (acc ++ reqs, d) /\ Forall2 entry_of entries reqs.
Proof.
  intros Hok. exec. unfold index_map.
  induction Hok as [|v entries (m & id & level & -> & Hid & Hlevel) _ IH]; intros i acc.
  - exists []. split; [|constructor]. cbn. by rewrite app_nil_r.
  - destruct (IH (S i) (acc ++ [UserGroupPermission.Build id level])) as (reqs & Hrun & Hall).
    exists (UserGroupPermission.Build id level :: reqs). split.
    + exec. rewrite Hid, Hlevel. exec.
      rewrite Hrun. by rewrite <- app_assoc.
    + constructor; [|done]. by exists m.
Qed.

Lemma resourceHostGroupPermissionsV1_spec d entries :
  get "host_permission" d = VList entries -> Forall entry_ok entries ->
  exists reqs, resourceHostGroupPermissionsV1 d = Ret (reqs, d) /\
    Forall2 entry_of entries reqs.
Proof.
  intros Hget Hok. destruct (permissions_loop d entries Hok 0%nat []) as (reqs & Hrun & Hall).
  exists reqs. split; [|done].
  unfold resourceHostGroupPermissionsV1. exec. rewrite Hget. exec.
  exec in Hrun. unfold index_map in Hrun. exact Hrun.
Qed.

(** C6: for every host_permission list held in local state, with entries
    as the schema has them, the translation returns request objects, as
    many as there are entries, the i-th with the "id" and the "permission"
    of the i-th entry; an empty list yields an empty result. *)
Theorem host_permissions_translated d entries :
  get "host_permission" d = VList entries -> Forall entry_ok entries ->
  exists reqs, resourceHostGroupPermissionsV1 d = Ret (reqs, d) /\
    length reqs = length entries /\
    (forall (i : nat) m, entries !! i = Some (VMap m) ->
       exists req, reqs !! i = Some req /\
         m !! "id" = Some (VString (UserGroupPermission.ID req)) /\
         m !! "permission" = Some (VInt (UserGroupPermission.Permission req))) /\
    (entries = [] -> reqs = []).
Proof.
  intros Hget Hok.
  destruct (resourceHostGroupPermissionsV1_spec d entries Hget Hok) as (reqs & Hrun & Hall).
  exists reqs. split_and!.
  - exact Hrun.
  - symmetry. by eapply Forall2_length.
  - intros i m Hi.
    destruct (Forall2_lookup_l _ _ _ _ _ Hall Hi) as (req & Hreq & m' & Heq & Hid & Hlevel).
    exists req. by simplify_eq.
  - intros ->. by apply Forall2_nil_inv_l in Hall.
Qed.

Lemma host_permissions_translated_witness :
  exists reqs,
    resourceHostGroupPermissionsV1 usergroup_state = Ret (reqs, usergroup_state) /\
    length reqs = 2%nat /\
    exists req, reqs !! 1%nat = Some req /\
      UserGroupPermission.ID req = "9" /\ UserGroupPermission.Permission req = 0.
Proof.
  destruct (host_permissions_translated usergroup_state
              [VMap {[ "id" := VString "4"; "permission" := VInt 3 ]};
               VMap {[ "id" := VString "9"; "permission" := VInt 0 ]}])
    as (reqs & Hrun & Hlen & Hnth & _).
  - reflexivity.
  - repeat constructor; eexists _, _, _; split_and!; reflexivity.
  - exists reqs. split_and!; [exact Hrun|exact Hlen|].
    destruct (Hnth 1%nat {[ "id" := VString "9"; "permission" := VInt 0 ]} eq_refl)
      as (req & Hreq & Hid & Hlevel).
    exists req. split_and!; [exact Hreq| |].
    + vm_compute in Hid. by injection Hid.
    + vm_compute in Hlevel. by injection Hlevel.
Defined.

(** ** Building a request from the local state *)

(** A program that makes no remote call and leaves the local state as it
    is: it returns or panics on the spot. *)
Definition pure_at {A : Type} (d : ResourceData) (p : Prog (A * ResourceData)) : Prop :=
  (exists why, p = Panic why) \/ (exists a, p = Ret (a, d)).

Lemma pure_Id d : pure_at d (Id d).
Proof. right. by eexists. Qed.

Lemma pure_Get key d : pure_at d (Get key d).
Proof. right. by eexists. Qed.

Lemma pure_GetString key d : pure_at d (GetString key d).
Proof. unfold GetString. exec. destruct (get key d); exec; [left|right|left..]; by eexists. Qed.

Lemma pure_GetInt key d : pure_at d (GetInt key d).
Proof. unfold GetInt. exec. destruct (get key d); exec; [left|left|right|left..]; by eexists. Qed.

Lemma pure_bind {A B : Type} (m : M A) (f : A -> M B) d :
  pure_at d (m d) -> (forall a, pure_at d (f a d)) -> pure_at d ((m ≫= f) d).
Proof.
  intros Hm Hf.
  change ((m ≫= f) d) with (pbind (m d) (fun '(a, d') => f a d')).
  destruct Hm as [[why ->]|[a ->]]; cbn [pbind].
  - left. by exists why.
  - apply Hf.
Qed.

Lemma pure_for_range {A St : Type} (body : nat -> A -> St -> M St) d xs :
  (forall i x s, pure_at d (body i x s d)) ->
  forall i s, pure_at d (for_range body i xs s d).
Proof.
  intros Hbody. induction xs as [|x xs IH]; intros i s; cbn [for_range].
  - right. by eexists.
  - apply pure_bind; [apply Hbody|]. intros s'. apply IH.
Qed.

Lemma pure_assert_string v d : pure_at d (assert_string v d).
Proof. destruct v; [left|right|left..]; by eexists. Qed.

Lemma pure_assert_int v d : pure_at d (assert_int v d).
Proof. destruct v; [left|left|right|left..]; by eexists. Qed.

Lemma pure_assert_map v d : pure_at d (assert_map v d).
Proof. destruct v; [left..|right|left]; by eexists. Qed.

Lemma pure_assert_list v d : pure_at d (assert_list v d).
Proof. destruct v; [left|left|left|right|left..]; by eexists. Qed.

Lemma pure_assert_set v d : pure_at d (assert_set v d).
Proof. destruct v; [left..|right]; by eexists. Qed.

Lemma pure_mret {A : Type} (a : A) d : pure_at d (mret (M := M) a d).
Proof. right. by eexists. Qed.

Lemma pure_resourceUserGroupsV1 d : pure_at d (resourceUserGroupsV1 d).
Proof.
  unfold resourceUserGroupsV1.
  apply pure_bind; [apply pure_Get|]. intros v.
  apply pure_bind; [apply pure_assert_set|]. intros l.
  apply pure_for_range. intros i x s. apply pure_mret.
Qed.

Lemma pure_resourceHostGroupPermissionsV1 d :
  pure_at d (resourceHostGroupPermissionsV1 d).
Proof.
  unfold resourceHostGroupPermissionsV1.
  apply pure_bind; [apply pure_Get|]. intros v.
  apply pure_bind; [apply pure_assert_list|]. intros l.
  apply pure_for_range. intros i x s.
  apply pure_bind; [apply pure_assert_map|]. intros m.
  apply pure_bind; [apply pure_assert_string|]. intros id.
  apply pure_bind; [apply pure_assert_int|]. intros level.
  apply pure_mret.
Qed.

(** A pure step in front of a program: either the whole program panics
    before any call, or the rest runs on the same local state. *)
Lemma always_pure_bind {A B : Type} (m : M A) (f : A -> M B) d
    (Q : list Event -> Outcome (B * ResourceData) -> Prop) :
  pure_at d (m d) ->
  (forall why, Q [] (Panicked why)) ->
  (forall a, always (f a d) Q) ->
  always ((m ≫= f) d) Q.
Proof.
  intros Hm Hpanic Hf.
  change ((m ≫= f) d) with (pbind (m d) (fun '(a, d') => f a d')).
  destruct Hm as [[why ->]|[a ->]]; cbn [pbind always].
  - apply Hpanic.
  - apply Hf.
Qed.

(** The groups loop fills the slice it allocated, element by element. *)
Lemma groups_loop d (xs : list string) :
  forall (pre : list UserGroupID.t),
    for_range (fun i raw (groups : list UserGroupID.t) =>
        mret (<[i := UserGroupID.Build raw]> groups))
      (length pre) xs (pre ++ replicate (length xs) (UserGroupID.Build "")) d
    = Ret (pre ++ (UserGroupID.Build <$> xs), d).
Proof.
  induction xs as [|x xs IH]; intros pre; cbn [for_range length replicate fmap list_fmap].
  - reflexivity.
  - unfold mbind, M_bind, mret, M_ret. cbn [pbind].
    rewrite insert_app_r_alt by lia. rewrite Nat.sub_diag. cbn [list_insert insert].
    specialize (IH (pre ++ [UserGroupID.Build x])).
    rewrite length_app in IH. cbn [length] in IH.
    rewrite Nat.add_1_r in IH. rewrite <- !app_assoc in IH. exact IH.
Qed.

Lemma resourceUserGroupsV1_spec d l :
  get "groups" d = VSet l ->
  resourceUserGroupsV1 d = Ret (UserGroupID.Build <$> l, d).
Proof.
  intros Hget. unfold resourceUserGroupsV1. exec. rewrite Hget. exec.
  pose proof (groups_loop d l []) as H. exec in H. exact H.
Qed.

(** ** What every run of a handler looks like *)

(** A lookup and what the read makes of its reply. *)
Inductive lookup_run (d : ResourceData) : list Event -> Outcome (error * ResourceData) -> Prop :=
| lookup_run_user params rs err :
    lookup_run d [Ev (UsersGet params) (rs, err)]
      (Done (read_result "multiple Users found" user_populated d rs err))
| lookup_run_usergroup params rs err :
    lookup_run d [Ev (UserGroupsGet params) (rs, err)]
      (Done (read_result "multiple UserGroups found" usergroup_populated d rs err))
| lookup_run_proxy params rs err :
    lookup_run d [Ev (ProxiesGet params) (rs, err)]
      (Done (read_result "multiple proxys found" proxy_populated d rs err)).

(** The identity a create call gave the first item of the slice. *)
Definition ev_created (ev : Event) : option string :=
  match ev with
  | Ev (UsersCreate _) (u :: _, _) => Some (User.UserID u)
  | Ev (UserGroupsCreate _) (g :: _, _) => Some (UserGroup.UserGroupID g)
  | Ev (ProxiesCreate _) (p :: _, _) => Some (Proxy.ProxyID p)
  | _ => None
  end.

Inductive handler_run (d : ResourceData) (h : M error) :
    list Event -> Outcome (error * ResourceData) -> Prop :=
| run_panic why :
    handler_run d h [] (Panicked why)
| run_no_attribute :
    h = Read dataProxy ->
    handler_run d h [] (Done (Some (errors_New "no proxy lookup attribute"), d))
| run_lookup l o :
    lookup_run d l o -> handler_run d h l o
| run_failed ev e :
    ev_error ev = Some e -> handler_run d h [ev] (Done (Some e, d))
| run_deleted ev :
    In h delete_handlers -> ev_error ev = None ->
    handler_run d h [ev] (Done (None, d))
| run_updated ev l o :
    In h update_handlers -> ev_error ev = None -> lookup_run d l o ->
    handler_run d h (ev :: l) o
| run_create_lost ev why :
    In h create_handlers -> ev_error ev = None -> ev_created ev = None ->
    handler_run d h [ev] (Panicked why)
| run_created ev id l o :
    In h create_handlers -> ev_error ev = None -> ev_created ev = Some id ->
    lookup_run (set_id id d) l o ->
    handler_run d h (ev :: l) o.

Lemma userRead_lookup params d
    (Q : list Event -> Outcome (error * ResourceData) -> Prop) :
  (forall l o, lookup_run d l o -> Q l o) -> always (userRead params d) Q.
Proof.
  intros HQ. eapply always_mono; [|apply userRead_always].
  intros l o (rs & err & -> & ->). apply HQ. constructor.
Qed.

Lemma userGroupRead_lookup params d
    (Q : list Event -> Outcome (error * ResourceData) -> Prop) :
  (forall l o, lookup_run d l o -> Q l o) -> always (userGroupRead params d) Q.
Proof.
  intros HQ. eapply always_mono; [|apply userGroupRead_always].
  intros l o (rs & err & -> & ->). apply HQ. constructor.
Qed.

Lemma proxyRead_lookup params d
    (Q : list Event -> Outcome (error * ResourceData) -> Prop) :
  (forall l o, lookup_run d l o -> Q l o) -> always (proxyRead params d) Q.
Proof.
  intros HQ. eapply always_mono; [|apply proxyRead_always].
  intros l o (rs & err & -> & ->). apply HQ. constructor.
Qed.

(** Walks through the pure steps that build a request. *)
Ltac pure_steps :=
  repeat (apply always_pure_bind;
          [ first [ apply pure_Id | apply pure_GetString | apply pure_GetInt
                  | apply pure_resourceUserGroupsV1
                  | apply pure_resourceHostGroupPermissionsV1 ]
          | intros ?; apply run_panic
          | intros ? ]).

Lemma create_handlers_always h d :
  In h create_handlers -> always (h d) (handler_run d h).
Proof.
  intros Hh. pose proof Hh as Hin. cbn in Hh.
  destruct Hh as [<-|[<-|[<-|[]]]].
  - unfold resourceUserCreate. pure_steps. intros [items [e|]].
    + by apply run_failed.
    + destruct items as [|created rest].
      * by apply run_create_lost.
      * apply userRead_lookup. intros l o Hl.
        by eapply run_created.
  - unfold resourceUserGroupCreate. pure_steps. intros [items [e|]].
    + by apply run_failed.
    + destruct items as [|created rest].
      * by apply run_create_lost.
      * apply userGroupRead_lookup. intros l o Hl.
        by eapply run_created.
  - unfold resourceProxyCreate. pure_steps. intros [items [e|]].
    + by apply run_failed.
    + destruct items as [|created rest].
      * by apply run_create_lost.
      * apply proxyRead_lookup. intros l o Hl.
        by eapply run_created.
Qed.

Lemma update_handlers_always h d :
  In h update_handlers -> always (h d) (handler_run d h).
Proof.
  intros Hh. pose proof Hh as Hin. cbn in Hh.
  destruct Hh as [<-|[<-|[<-|[]]]].
  - unfold resourceUserUpdate. pure_steps. intros [e|].
    + by apply run_failed.
    + apply userRead_lookup. intros l o Hl. by apply run_updated.
  - unfold resourceUserGroupUpdate. pure_steps. intros [e|].
    + by apply run_failed.
    + apply userGroupRead_lookup. intros l o Hl. by apply run_updated.
  - unfold resourceProxyUpdate. pure_steps. intros [e|].
    + by apply run_failed.
    + apply proxyRead_lookup. intros l o Hl. by apply run_updated.
Qed.

Lemma delete_handlers_always h d :
  In h delete_handlers -> always (h d) (handler_run d h).
Proof.
  intros Hh. pose proof Hh as Hin. cbn in Hh.
  destruct Hh as [<-|[<-|[<-|[]]]]; intros [e|];
    solve [by apply run_failed | by apply run_deleted].
Qed.

Lemma read_handlers_lookup h d :
  In h read_handlers -> always (h d) (handler_run d h).
Proof.
  intros Hh. cbn in Hh.
  destruct Hh as [<-|[<-|[<-|[<-|[<-|[<-|[]]]]]]].
  - apply userRead_lookup. intros l o Hl. by apply run_lookup.
  - apply userRead_lookup. intros l o Hl. by apply run_lookup.
  - apply userGroupRead_lookup. intros l o Hl. by apply run_lookup.
  - apply userGroupRead_lookup. intros l o Hl. by apply run_lookup.
  - apply proxyRead_lookup. intros l o Hl. by apply run_lookup.
  - unfold Read, dataProxy, dataProxyRead. exec.
    destruct (is_zero (get "name" d)); cbn [negb].
    + by apply run_no_attribute.
    + apply proxyRead_lookup. intros l o Hl. by apply run_lookup.
Qed.

Lemma all_handlers_run {W : Type} (api : API W) h d w :
  In h all_handlers ->
  handler_run d h (calls (run api h d w)) (outcome (run api h d w)).
Proof.
  intros Hh. apply (always_run api (h d) (handler_run d h) w).
  unfold all_handlers in Hh. rewrite !in_app_iff in Hh.
  destruct Hh as [Hh|[Hh|[Hh|Hh]]].
  - by apply create_handlers_always.
  - by apply read_handlers_lookup.
  - by apply update_handlers_always.
  - by apply delete_handlers_always.
Qed.
